(** * raygun: error introspection and stack-trace extraction

    A shallow embedding of [util.go] ([cause], [class], [data],
    [stacktrace]) and of the [Error] / [StackTrace] part of the package's
    main file ([Error.Error], [StackTrace.AddEntry], [FromErr]).

    Go strings are byte strings ([string]), Go [int] is the 64-bit signed
    integer ([Z] with the range written out where it matters), a run-time
    panic is the [Panic] outcome of the [go] monad. *)

From Stdlib Require Import String Ascii List ZArith Lia Bool Arith.
From Stdlib Require Import Permutation.
From Stdlib Require DecimalString DecimalPos DecimalZ.
Import ListNotations.
Local Open Scope string_scope.
Local Open Scope Z_scope.

(** ** Outcomes of Go code that may panic *)

Inductive panic : Type :=
| nil_dereference
| index_out_of_range (i len : nat)
| slice_bounds_out_of_range (i len : nat).

Inductive go (A : Type) : Type :=
| Ok (a : A)
| Panic (p : panic).
Arguments Ok {A} a.
Arguments Panic {A} p.

Definition bind {A B : Type} (m : go A) (k : A -> go B) : go B :=
  match m with
  | Ok a => k a
  | Panic p => Panic p
  end.

Notation "x <- m ;; k" := (bind m (fun x => k))
  (at level 61, m at next level, right associativity).

(** [xs[i]]: indexing panics outside [0 <= i < len(xs)]. *)
Definition index {A : Type} (xs : list A) (i : nat) : go A :=
  match nth_error xs i with
  | Some x => Ok x
  | None => Panic (index_out_of_range i (length xs))
  end.

(** [xs[i:]]: slicing panics when [i > len(xs)]. *)
Definition slice_from {A : Type} (xs : list A) (i : nat) : go (list A) :=
  if (i <=? length xs)%nat then Ok (skipn i xs)
  else Panic (slice_bounds_out_of_range i (length xs)).

(** [xs[:hi]]: slicing panics outside [0 <= hi <= len(xs)]. *)
Definition slice_to {A : Type} (xs : list A) (hi : Z) : go (list A) :=
  if (0 <=? hi) && (hi <=? Z.of_nat (length xs))
  then Ok (firstn (Z.to_nat hi) xs)
  else Panic (slice_bounds_out_of_range (Z.to_nat hi) (length xs)).

(** ** The library functions the extractor calls *)

Module strings.

(** [occurs sep s]: [sep] occurs somewhere in [s]. *)
Fixpoint occurs (sep s : string) : bool :=
  match s with
  | EmptyString => prefix sep s
  | String _ s' => prefix sep s || occurs sep s'
  end.

(** The scan of [strings.Split] for a non-empty separator: leftmost
    occurrences, not overlapping.  [skip] counts the bytes of a matched
    separator still to be passed over, [cur] is the field being read. *)
Fixpoint split_from (sep : string) (skip : nat) (cur s : string) : list string :=
  match s with
  | EmptyString => [cur]
  | String c s' =>
      match skip with
      | S k => split_from sep k cur s'
      | O =>
          if prefix sep s
          then cur :: split_from sep (String.length sep - 1) "" s'
          else split_from sep 0 (cur ++ String c "") s'
      end
  end.

(** [strings.Split(s, sep)], for the non-empty separators of this
    package (newline+tab, "." and ":"). *)
Definition Split (s sep : string) : list string := split_from sep 0 "" s.

(** [strings.Join(elems, sep)]. *)
Fixpoint Join (elems : list string) (sep : string) : string :=
  match elems with
  | [] => ""
  | [x] => x
  | x :: rest => x ++ sep ++ Join rest sep
  end.

End strings.

Module strconv.

Definition digit (c : ascii) : option Z :=
  let n := nat_of_ascii c in
  if ((48 <=? n) && (n <=? 57))%nat then Some (Z.of_nat (n - 48)) else None.

(** Decimal value of a digit string, most significant digit first. *)
Fixpoint digits (acc : Z) (s : string) : option Z :=
  match s with
  | EmptyString => Some acc
  | String c s' =>
      match digit c with
      | Some d => digits (10 * acc + d) s'
      | None => None
      end
  end.

Definition unsigned (s : string) : option Z :=
  match s with
  | EmptyString => None
  | _ => digits 0 s
  end.

Definition in_int_range (n : Z) : bool :=
  (- 2 ^ 63 <=? n) && (n <=? 2 ^ 63 - 1).

(** [strconv.Atoi]: an optional sign, then one or more decimal digits,
    the value within the range of [int]; [None] is a non-nil error. *)
Definition Atoi (s : string) : option Z :=
  let signed :=
    match s with
    | String "-" s' => option_map Z.opp (unsigned s')
    | String "+" s' => unsigned s'
    | _ => unsigned s
    end in
  match signed with
  | Some n => if in_int_range n then Some n else None
  | None => None
  end.

End strconv.

(** ** Data model *)

(** A value of type [interface{}]. *)
Inductive any : Type :=
| any_nil
| any_string (s : string)
| any_int (n : Z)
| any_map (kv : list (string * string)).

Record StackTraceElement : Type := {
  LineNumber : Z;
  PackageName : string;
  FileName : string;
  MethodName : string
}.

Definition StackTrace : Type := list StackTraceElement.

(** [func (s *StackTrace) AddEntry]: the receiver is passed and returned. *)
Definition AddEntry (s : StackTrace) (lineNumber : Z)
    (packageName fileName methodName : string) : StackTrace :=
  (s ++ [ {| LineNumber := lineNumber; PackageName := packageName;
             FileName := fileName; MethodName := methodName |} ])%list.

Record Error : Type := {
  InnerError : string;
  Data : any;
  ClassName : string;
  Message : string;
  Error_StackTrace : StackTrace
}.

(** [func (e Error) Error() string] *)
Definition Error_Error (e : Error) : string := Message e.

(** A [pkg/errors] frame, seen through the three renderings the extractor
    asks [fmt.Sprintf] for. *)
Record Frame : Type := {
  fmt_d : string;        (* "%d" *)
  fmt_plus_s : string;   (* "%+s" *)
  fmt_n : string         (* "%n" *)
}.

(** A value of the interface type [error]: nil, a value whose dynamic type
    is this package's [Error], or a value of any other dynamic type, given
    by what its [Error] method returns and by the result of each type
    assertion the package makes on it ([None]: the assertion fails).
    [data_m] is the result of [err.(dataer)], the assertion of the method
    [data]: it is [None] for every type declared outside this package,
    whatever [Data] method the type has (see [implements_dataer]).
    Values whose [Error] method itself panics, such as a nil [*Error],
    are not among these. *)
#[warnings="-register-all"]
Inductive error : Type :=
| nil_error
| Error_value (e : Error)
| dyn_error (Error_m : string)
            (Cause_m : option error)
            (Class_m : option string)
            (data_m : option any)
            (StackTrace1_m : option (list Frame))
            (StackTrace2_m : option (list string)).

(** [err.Error()] on an interface value; calling it on the nil interface
    panics. *)
Definition error_Error (err : error) : go string :=
  match err with
  | nil_error => Panic nil_dereference
  | Error_value e => Ok (Error_Error e)
  | dyn_error m _ _ _ _ _ => Ok m
  end.

(** The type assertions of util.go. *)
Definition as_causer (err : error) : option error :=
  match err with dyn_error _ c _ _ _ _ => c | _ => None end.
Definition as_classer (err : error) : option string :=
  match err with dyn_error _ _ c _ _ _ => c | _ => None end.
Definition as_dataer (err : error) : option any :=
  match err with dyn_error _ _ _ d _ _ => d | _ => None end.
Definition as_stackTracer1 (err : error) : option (list Frame) :=
  match err with dyn_error _ _ _ _ s _ => s | _ => None end.
Definition as_stackTracer2 (err : error) : option (list string) :=
  match err with dyn_error _ _ _ _ _ s => s | _ => None end.

Definition is_nil (err : error) : bool :=
  match err with nil_error => true | _ => false end.

(** A dynamic type as the assertion [err.(dataer)] sees it: the package
    that declares it, what its [Error] method returns, and its methods
    without arguments that return an [interface{}], by name. *)
Record dynamic_type : Type := {
  declared_in : string;
  Error_text : string;
  accessors : list (string * any)
}.

Definition this_package : string := "github.com/codeclysm/raygun".

Definition method (T : dynamic_type) (name : string) : option any :=
  option_map snd (find (fun mv => String.eqb (fst mv) name) (accessors T)).

(** [err.(dataer)]: the only method of [dataer] is [data], a name that is
    not exported and so is this package's own; a type has it only when it
    is declared in this package under that very name. *)
Definition implements_dataer (T : dynamic_type) : option any :=
  if String.eqb (declared_in T) this_package then method T "data" else None.

(** An error of type [T] with no capability but its data accessors. *)
Definition error_of_type (T : dynamic_type) : error :=
  dyn_error (Error_text T) None None (implements_dataer T) None None.

(** The error type the documentation of [FromErr] describes, declared by
    a program that uses the package: [Data() interface{}]. *)
Definition payload_type : dynamic_type :=
  {| declared_in := "main";
     Error_text := "boom";
     accessors := [("Data", any_string "order 42")] |}.

(** ** util.go *)

(** One pass through the body of the [for] loop of [cause]: [Some c] is
    the assignment [err = c], [None] is a [break]. *)
Definition cause_body (err : error) : option error :=
  match as_causer err with
  | None => None
  | Some c => if is_nil c then None else Some c
  end.

(** The loop of [cause], cut after [fuel] passes; [steps] counts the
    assignments [err = c] made so far.  [None]: the loop is still running
    when the fuel is spent. *)
Fixpoint cause_loop (fuel : nat) (err : error) (steps : nat) : option (error * nat) :=
  match fuel with
  | O => None
  | S fuel' =>
      match cause_body err with
      | None => Some (err, steps)
      | Some c => cause_loop fuel' c (S steps)
      end
  end.

Definition cause (fuel : nat) (err : error) : option error :=
  option_map fst (cause_loop fuel err 0).

Definition class (err : error) : string :=
  match as_classer err with
  | Some c => c
  | None => ""
  end.

Definition data (err : error) : any :=
  match as_dataer err with
  | Some d => d
  | None => any_nil
  end.

(** What [stacktrace] reads from outside its argument: the frames that
    [stack2struct.Parse] adds for the text [runtime.Stack] writes for the
    calling goroutine. *)
Record runtime : Type := {
  parsed_stack : StackTrace
}.

Definition newline_tab : string :=
  String (ascii_of_nat 10) (String (ascii_of_nat 9) "").

(** Body of [for _, line := range s] over a [pkgerr.StackTrace]. *)
Definition stackTracer1_entry (stack : StackTrace) (line : Frame) : go StackTrace :=
  let n := match strconv.Atoi (fmt_d line) with
           | Some n => n
           | None => -1
           end in
  let filename := fmt_plus_s line in
  let parts := strings.Split filename newline_tab in
  parts0 <- index parts 0 ;;
  let packparts := strings.Split parts0 "." in
  init <- slice_to packparts (Z.of_nat (length packparts) - 1) ;;
  let pack := strings.Join init "." in
  parts1 <- index parts 1 ;;
  Ok (AddEntry stack n pack parts1 (fmt_n line)).

(** Body of [for _, line := range s] over a [[]string]. *)
Definition stackTracer2_entry (stack : StackTrace) (line : string) : go StackTrace :=
  let parts := strings.Split line ":" in
  parts1 <- index parts 1 ;;
  let n := match strconv.Atoi parts1 with
           | Some n => n
           | None => -1
           end in
  parts0 <- index parts 0 ;;
  Ok (AddEntry stack n "" parts0 "").

(** [for _, x := range xs { stack = body(stack, x) }] *)
Fixpoint range {A : Type} (body : StackTrace -> A -> go StackTrace)
    (xs : list A) (stack : StackTrace) : go StackTrace :=
  match xs with
  | [] => Ok stack
  | x :: rest => stack' <- body stack x ;; range body rest stack'
  end.

Definition stacktrace (rt : runtime) (err : error) : go StackTrace :=
  let stack : StackTrace := [] in
  match as_stackTracer1 err with
  | Some s => range stackTracer1_entry s stack
  | None =>
      match as_stackTracer2 err with
      | Some s => range stackTracer2_entry s stack
      | None =>
          let stack := (stack ++ parsed_stack rt)%list in
          slice_from stack 2
      end
  end.

(** ** FromErr *)

(** The composite literal [rayerr := Error{...}], fields evaluated in the
    order they are written; [InnerError] is left at its zero value. *)
Definition rayerr (rt : runtime) (err : error) : go Error :=
  message <- error_Error err ;;
  let className := class err in
  let d := data err in
  st <- stacktrace rt err ;;
  Ok {| InnerError := "";
        Data := d;
        ClassName := className;
        Message := message;
        Error_StackTrace := st |}.

Definition FromErr (rt : runtime) (err : error) : go Error :=
  match err with
  | Error_value e => Ok e
  | _ => rayerr rt err
  end.

(** ** Errors of the test file

    [pkerr.New] and [pkerr.Wrap] of github.com/pkg/errors, as far as the
    package can observe them: [New] gives a value with [Error] and
    [StackTrace() pkgerr.StackTrace]; [Wrap(err, message)] gives a
    [withStack] around a [withMessage], both with [Cause], the outer one
    with [StackTrace() pkgerr.StackTrace]; [callers] stands for the frames
    recorded at the call. *)
Module pkerr.

Definition New (message : string) (callers : list Frame) : error :=
  dyn_error message None None None (Some callers) None.

Definition withMessage (cause : error) (message causeText : string) : error :=
  dyn_error (message ++ ": " ++ causeText) (Some cause) None None None None.

Definition Wrap (err : error) (message : string) (callers : list Frame) : go error :=
  match err with
  | nil_error => Ok nil_error
  | _ =>
      causeText <- error_Error err ;;
      Ok (dyn_error (message ++ ": " ++ causeText)
                    (Some (withMessage err message causeText))
                    None None (Some callers) None)
  end.

End pkerr.

(** [errors.New] of the standard library: no capability at all. *)
Definition errors_New (text : string) : error :=
  dyn_error text None None None None None.

(** A value of dynamic type [*Error]: it has the methods of [Error], and
    the assertion [err.(Error)] fails on it. *)
Definition Error_pointer (e : Error) : error :=
  dyn_error (Error_Error e) None None None None None.

(** ** The specification's words, for comparison *)

(** Length of the cause chain below [err]: the number of links whose
    [Cause()] is present and not nil. *)
Fixpoint chain_depth (err : error) : nat :=
  match err with
  | dyn_error _ (Some c) _ _ _ _ =>
      match c with
      | nil_error => O
      | _ => S (chain_depth c)
      end
  | _ => O
  end.

(** The error at the end of the cause chain. *)
Fixpoint chain_root (err : error) : error :=
  match err with
  | dyn_error _ (Some c) _ _ _ _ =>
      match c with
      | nil_error => err
      | _ => chain_root c
      end
  | _ => err
  end.

(** A chain built by hand: one wrapper per message around [root], each
    with [Cause()] returning what it wraps. *)
Definition wrap_all (messages : list string) (root : error) : error :=
  fold_right (fun m e => dyn_error m (Some e) None None None None) root messages.

Definition line_or_minus_one (text : string) : Z :=
  match strconv.Atoi text with
  | Some n => n
  | None => -1
  end.

(** The frame the specification gives for a structured descriptor whose
    file rendering reads [prefix], newline, tab, [suffix]. *)
Definition spec_frame_A (line : Frame) (prefix suffix : string) : StackTraceElement :=
  {| LineNumber := line_or_minus_one (fmt_d line);
     PackageName := strings.Join (removelast (strings.Split prefix ".")) ".";
     FileName := suffix;
     MethodName := fmt_n line |}.

Definition has_shape_A (line : Frame) (shape : string * string) : Prop :=
  fmt_plus_s line = fst shape ++ newline_tab ++ snd shape /\
  strings.occurs newline_tab (fst shape) = false /\
  strings.occurs newline_tab (snd shape) = false.

(** The frame the specification gives for a string line [file:line]. *)
Definition spec_frame_B (file lineText : string) : StackTraceElement :=
  {| LineNumber := line_or_minus_one lineText;
     PackageName := "";
     FileName := file;
     MethodName := "" |}.


(** ** The rest of the package *)

(** [fmt.Sprintf("%d", n)] for an [int]: the decimal digits, with a
    minus sign in front of a negative number. *)
Definition Sprintf_d (n : Z) : string :=
  DecimalString.NilZero.string_of_int (Z.to_int n).

Definition newline : string := String (ascii_of_nat 10) "".

(** [fmt.Sprintf("%s/%s:%d\n", line.PackageName, line.FileName, line.LineNumber)] *)
Definition Sprintf_line (line : StackTraceElement) : string :=
  PackageName line ++ "/" ++ FileName line ++ ":" ++ Sprintf_d (LineNumber line)
  ++ newline.

(** [func (s *StackTrace) String() string] *)
Definition StackTrace_String (s : StackTrace) : string :=
  fold_left (fun out line => out ++ Sprintf_line line) s "".

(** One line of [String] without its newline, and the frame the
    string-line loop makes of it. *)
Definition line_text (line : StackTraceElement) : string :=
  PackageName line ++ "/" ++ FileName line ++ ":" ++ Sprintf_d (LineNumber line).

Definition read_back (line : StackTraceElement) : StackTraceElement :=
  {| LineNumber := LineNumber line;
     PackageName := "";
     FileName := PackageName line ++ "/" ++ FileName line;
     MethodName := "" |}.

(** A Go map with string keys: the entries in the order a [range] over it
    yields them; [set] is the assignment [m[k] = v]. *)
Module gomap.

Definition t (V : Type) : Type := list (string * V).

Definition get {V : Type} (m : t V) (k : string) : option V :=
  option_map snd (find (fun kv => String.eqb (fst kv) k) m).

Definition set {V : Type} (m : t V) (k : string) (v : V) : t V :=
  (k, v) :: filter (fun kv => negb (String.eqb (fst kv) k)) m.

Definition keys {V : Type} (m : t V) : list string := map fst m.

End gomap.

(** The body of the loop of [arrayMapToStringMap]: the value stored for
    one key. *)
Definition arrayMap_entry (v : list string) : go string :=
  if (1 <? length v)%nat
  then Ok ("[" ++ strings.Join v "; " ++ "]")
  else index v 0.

(** [for k, v := range arrayMap { entries[k] = ... }] *)
Fixpoint arrayMap_range (arrayMap : gomap.t (list string))
    (entries : gomap.t string) : go (gomap.t string) :=
  match arrayMap with
  | [] => Ok entries
  | (k, v) :: rest =>
      e <- arrayMap_entry v ;;
      arrayMap_range rest (gomap.set entries k e)
  end.

Definition arrayMapToStringMap (arrayMap : gomap.t (list string)) : go (gomap.t string) :=
  arrayMap_range arrayMap [].

(** A [*url.URL], by what [FromReq] asks of it: [String()] and
    [Query()]. *)
Record url_URL : Type := {
  URL_String : string;
  URL_Query : gomap.t (list string)
}.

(** An [http.Request], by the fields [FromReq] reads. [req_URL] is a
    pointer and [req_Body] an interface, both may be nil ([None]);
    [Some body] is a body from which [ioutil.ReadAll] returns the bytes
    [body] (its error is dropped). *)
Record http_Request : Type := {
  req_Host : string;
  req_URL : option url_URL;
  req_Method : string;
  req_RemoteAddr : string;
  req_PostForm : gomap.t (list string);
  req_Header : gomap.t (list string);
  req_Body : option string
}.

(** Reading through a nil pointer or calling a method of a nil
    interface. *)
Definition deref {A : Type} (p : option A) : go A :=
  match p with
  | Some a => Ok a
  | None => Panic nil_dereference
  end.

Record Request : Type := {
  HostName : string;
  URL : string;
  HTTPMethod : string;
  IPAddress : string;
  QueryString : gomap.t string;
  Form : gomap.t string;
  Headers : gomap.t string;
  RawData : string
}.

(** [FromReq(req *http.Request)]: the body is read first, then the
    fields of the literal are evaluated in the order they are written. *)
Definition FromReq (req : option http_Request) : go Request :=
  r <- deref req ;;
  body <- deref (req_Body r) ;;
  let hostName := req_Host r in
  url <- deref (req_URL r) ;;
  let urlString := URL_String url in
  queryString <- arrayMapToStringMap (URL_Query url) ;;
  form <- arrayMapToStringMap (req_PostForm r) ;;
  headers <- arrayMapToStringMap (req_Header r) ;;
  Ok {| HostName := hostName;
        URL := urlString;
        HTTPMethod := req_Method r;
        IPAddress := req_RemoteAddr r;
        QueryString := queryString;
        Form := form;
        Headers := headers;
        RawData := body |}.

(** The value [arrayMapToStringMap] stores for a key whose slice is not
    empty. *)
Definition flattened (v : list string) : string :=
  match v with
  | [] => ""
  | [x] => x
  | _ => "[" ++ strings.Join v "; " ++ "]"
  end.

Definition no_empty_slice (m : gomap.t (list string)) : bool :=
  forallb (fun kv => match snd kv with [] => false | _ => true end) m.

(** The frame the string-line loop adds for one line, read off the fields
    of the split. *)
Definition frame_of_string_line (line : string) : StackTraceElement :=
  {| LineNumber := line_or_minus_one (nth 1 (strings.Split line ":") "");
     PackageName := "";
     FileName := nth 0 (strings.Split line ":") "";
     MethodName := "" |}.

(** The frame the structured loop adds for one descriptor. *)
Definition frame_of_descriptor (line : Frame) : StackTraceElement :=
  let parts := strings.Split (fmt_plus_s line) newline_tab in
  {| LineNumber := line_or_minus_one (fmt_d line);
     PackageName := strings.Join (removelast (strings.Split (nth 0 parts "") ".")) ".";
     FileName := nth 1 parts "";
     MethodName := fmt_n line |}.

(** ** Values used in the examples *)

Definition go_frame (line symbol file name : string) : Frame :=
  {| fmt_d := line; fmt_plus_s := symbol ++ newline_tab ++ file; fmt_n := name |}.

(** The frames [callers()] records inside [wrapErr] in [TestFromErr]. *)
Definition wrap_callers : list Frame :=
  [ go_frame "72" "github.com/codeclysm/raygun_test.wrapErr"
             "/go/src/github.com/codeclysm/raygun/raygun_test.go" "wrapErr";
    go_frame "29" "github.com/codeclysm/raygun_test.TestFromErr"
             "/go/src/github.com/codeclysm/raygun/raygun_test.go" "TestFromErr";
    go_frame "610" "testing.tRunner" "/usr/local/go/src/testing/testing.go" "tRunner";
    go_frame "2086" "runtime.goexit" "/usr/local/go/src/runtime/asm_amd64.s" "goexit" ].

Definition new_callers : list Frame := tl wrap_callers.

Definition raw_frame (line : Z) (pack file method : string) : StackTraceElement :=
  {| LineNumber := line; PackageName := pack; FileName := file; MethodName := method |}.

(** A goroutine stack as the fallback sees it: [stacktrace], [FromErr],
    then the caller. *)
Definition test_runtime : runtime :=
  {| parsed_stack :=
       [ raw_frame 149 "github.com/codeclysm/raygun" "util.go" "stacktrace";
         raw_frame 185 "github.com/codeclysm/raygun" "raygun.go" "FromErr";
         raw_frame 60 "github.com/codeclysm/raygun_test" "raygun_test.go" "TestFromErr";
         raw_frame 610 "testing" "testing.go" "tRunner";
         raw_frame 2086 "runtime" "asm_amd64.s" "goexit" ] |}.

(** An error whose [StackTrace() []string] has a line that carries a
    message and no location. *)
Definition message_only_lines : error :=
  dyn_error "wrapped err: new error" (Some (errors_New "new error")) None None None
            (Some ["new error"; "github.com/codeclysm/raygun/raygun_test.go:76: wrapped err"]).

(** * Properties *)

(** ** Strings *)

Lemma append_empty_r (s : string) : s ++ "" = s.
Proof. induction s as [|c s IH]; simpl; [reflexivity | now rewrite IH]. Qed.

Lemma append_assoc (a b c : string) : (a ++ b) ++ c = a ++ b ++ c.
Proof. induction a as [|x a IH]; simpl; [reflexivity | now rewrite IH]. Qed.

Lemma append_snoc (cur : string) (c : ascii) (s : string) :
  (cur ++ String c "") ++ s = cur ++ String c s.
Proof. now rewrite append_assoc. Qed.

Lemma prefix_append (sep rest : string) : prefix sep (sep ++ rest) = true.
Proof.
  induction sep as [|c sep IH]; simpl.
  - now destruct rest.
  - destruct (ascii_dec c c); [exact IH | congruence].
Qed.

Module split_facts.
Import strings.

Lemma split_from_nonempty sep skip cur s : split_from sep skip cur s <> [].
Proof.
  revert skip cur; induction s as [|c s IH]; intros skip cur; cbn [split_from].
  - discriminate.
  - destruct skip; [|apply IH].
    destruct (prefix sep (String c s)); [discriminate | apply IH].
Qed.

Lemma Split_length_pos s sep : (1 <= length (Split s sep))%nat.
Proof.
  unfold Split.
  pose proof (split_from_nonempty sep 0 "" s) as H.
  destruct (split_from sep 0 "" s); [congruence | simpl; lia].
Qed.

(** Passing over the rest of a matched separator. *)
Lemma split_from_skip sep x rest cur :
  split_from sep (String.length x) cur (x ++ rest) = split_from sep 0 cur rest.
Proof.
  induction x as [|c x IH]; simpl; [|exact IH].
  destruct rest; reflexivity.
Qed.

Lemma split_from_match c sep' rest cur :
  split_from (String c sep') 0 cur (String c sep' ++ rest)
  = cur :: split_from (String c sep') 0 "" rest.
Proof.
  cbn [append split_from].
  change (String c (sep' ++ rest)) with (String c sep' ++ rest).
  rewrite prefix_append.
  replace (String.length (String c sep') - 1)%nat with (String.length sep')
    by (cbn [String.length]; lia).
  now rewrite split_from_skip.
Qed.

Lemma split_from_none sep s cur :
  occurs sep s = false -> split_from sep 0 cur s = [cur ++ s].
Proof.
  revert cur; induction s as [|c s IH]; intros cur H.
  - simpl. now rewrite append_empty_r.
  - cbn [occurs] in H. apply orb_false_iff in H as [Hp Ho].
    cbn [split_from]. rewrite Hp, (IH _ Ho). now rewrite append_snoc.
Qed.

(** A separator of two different bytes, as newline+tab is: an
    occurrence cannot straddle the end of a field. *)
Section two_byte_separator.
Variables a b : ascii.
Hypothesis a_neq_b : a <> b.
Let sep := String a (String b "").

Lemma prefix_two_bytes s :
  prefix sep s =
  match s with
  | String x (String y _) =>
      if ascii_dec a x then if ascii_dec b y then true else false else false
  | _ => false
  end.
Proof.
  unfold sep. destruct s as [|x [|y s]]; cbn [prefix]; try reflexivity.
  - destruct (ascii_dec a x); reflexivity.
  - destruct (ascii_dec a x); [|reflexivity].
    destruct (ascii_dec b y); [now destruct s | reflexivity].
Qed.

Lemma split_two_bytes_first p rest cur :
  occurs sep p = false ->
  split_from sep 0 cur (p ++ sep ++ rest)
  = (cur ++ p) :: split_from sep 0 "" rest.
Proof.
  revert cur; induction p as [|c p IH]; intros cur H.
  - rewrite append_empty_r. apply split_from_match.
  - cbn [occurs] in H. apply orb_false_iff in H as [Hp Ho].
    cbn [append split_from].
    assert (Hn : prefix sep (String c (p ++ sep ++ rest)) = false).
    { rewrite prefix_two_bytes in Hp |- *.
      destruct p as [|y p]; cbn [append].
      - unfold sep at 1. cbn [append].
        destruct (ascii_dec a c); [|reflexivity].
        destruct (ascii_dec b a); [congruence | reflexivity].
      - exact Hp. }
    rewrite Hn, (IH _ Ho). now rewrite append_snoc.
Qed.

Lemma Split_two_bytes prefix suffix :
  occurs sep prefix = false ->
  occurs sep suffix = false ->
  Split (prefix ++ sep ++ suffix) sep = [prefix; suffix].
Proof.
  intros Hp Hs. unfold Split.
  rewrite (split_two_bytes_first _ _ _ Hp), (split_from_none _ _ _ Hs).
  reflexivity.
Qed.

End two_byte_separator.

Lemma Split_newline_tab prefix suffix :
  occurs newline_tab prefix = false ->
  occurs newline_tab suffix = false ->
  Split (prefix ++ newline_tab ++ suffix) newline_tab = [prefix; suffix].
Proof. apply Split_two_bytes. discriminate. Qed.

Section one_byte_separator.
Variable c : ascii.
Let sep := String c "".

Lemma prefix_one_byte x s : prefix sep (String x s) = if ascii_dec c x then true else false.
Proof. unfold sep. simpl. destruct (ascii_dec c x); [now destruct s | reflexivity]. Qed.

Lemma split_byte_first p rest cur :
  occurs sep p = false ->
  split_from sep 0 cur (p ++ String c rest)
  = (cur ++ p) :: split_from sep 0 "" rest.
Proof.
  revert cur; induction p as [|x p IH]; intros cur H.
  - rewrite append_empty_r. apply (split_from_match c "" rest cur).
  - cbn [occurs] in H. apply orb_false_iff in H as [Hp Ho].
    rewrite prefix_one_byte in Hp.
    cbn [append split_from]. rewrite prefix_one_byte.
    destruct (ascii_dec c x); [discriminate|].
    rewrite (IH _ Ho). now rewrite append_snoc.
Qed.

Lemma split_byte_last a b cur :
  occurs sep b = false ->
  split_from sep 0 cur (a ++ String c b)
  = (split_from sep 0 cur a ++ [b])%list.
Proof.
  intros Hb. revert cur; induction a as [|x a IH]; intros cur.
  - change ("" ++ String c b) with (sep ++ b).
    unfold sep. rewrite split_from_match, (split_from_none _ _ _ Hb).
    reflexivity.
  - cbn [append split_from]. rewrite !prefix_one_byte.
    destruct (ascii_dec c x).
    + unfold sep at 2 4. cbn [String.length Nat.sub].
      now rewrite IH.
    + apply IH.
Qed.

Lemma Join_split_byte s cur :
  Join (split_from sep 0 cur s) sep = cur ++ s.
Proof.
  revert cur; induction s as [|x s IH]; intros cur.
  - simpl. now rewrite append_empty_r.
  - cbn [split_from]. rewrite prefix_one_byte.
    destruct (ascii_dec c x) as [->|].
    + unfold sep at 2. cbn [String.length Nat.sub].
      pose proof (split_from_nonempty sep 0 "" s) as Hne.
      specialize (IH "").
      destruct (split_from sep 0 "" s) as [|y l]; [congruence|].
      cbn [Join]. cbn [Join] in IH. rewrite IH. reflexivity.
    + rewrite IH. now rewrite append_snoc.
Qed.

Lemma Join_Split_byte s : Join (Split s sep) sep = s.
Proof. unfold Split. apply Join_split_byte. Qed.

(** Dropping the last field gives back what stands before the last
    separator. *)
Lemma Join_init_Split_byte a b :
  occurs sep b = false ->
  Join (removelast (Split (a ++ String c b) sep)) sep = a.
Proof.
  intros Hb. unfold Split. rewrite (split_byte_last _ _ _ Hb).
  rewrite removelast_last. apply Join_split_byte.
Qed.

End one_byte_separator.

End split_facts.

(** ** The loops over frame sequences *)

Lemma slice_to_init {A : Type} (xs : list A) :
  (1 <= length xs)%nat ->
  slice_to xs (Z.of_nat (length xs) - 1) = Ok (removelast xs).
Proof.
  intros Hlen. unfold slice_to.
  replace ((0 <=? Z.of_nat (length xs) - 1)
           && (Z.of_nat (length xs) - 1 <=? Z.of_nat (length xs))) with true
    by (symmetry; apply andb_true_iff; split; apply Z.leb_le; lia).
  rewrite removelast_firstn_len. do 2 f_equal. lia.
Qed.

Lemma stackTracer1_entry_shape (stack : StackTrace) (line : Frame) (shape : string * string) :
  has_shape_A line shape ->
  stackTracer1_entry stack line
  = Ok (stack ++ [spec_frame_A line (fst shape) (snd shape)])%list.
Proof.
  intros (Hfile & Hprefix & Hsuffix). unfold stackTracer1_entry.
  rewrite Hfile, (split_facts.Split_newline_tab _ _ Hprefix Hsuffix).
  cbn [index nth_error bind].
  rewrite slice_to_init by apply split_facts.Split_length_pos.
  reflexivity.
Qed.

Lemma range_stackTracer1 (s : list Frame) (shapes : list (string * string)) :
  Forall2 has_shape_A s shapes ->
  forall stack,
    range stackTracer1_entry s stack
    = Ok (stack ++ map (fun ls => spec_frame_A (fst ls) (fst (snd ls)) (snd (snd ls)))
                       (combine s shapes))%list.
Proof.
  induction 1 as [|line shape s shapes Hline _ IH]; intros stack; cbn [range combine map].
  - now rewrite app_nil_r.
  - rewrite (stackTracer1_entry_shape _ _ _ Hline). cbn [bind].
    rewrite IH. now rewrite <- app_assoc.
Qed.

(** A string line [file:lineText] with no further colon gives the frame
    of the flat convention, with line number -1 when [lineText] is not a
    number. *)
Lemma stackTracer2_entry_shape (stack : StackTrace) (file lineText : string) :
  strings.occurs ":" file = false ->
  strings.occurs ":" lineText = false ->
  stackTracer2_entry stack (file ++ ":" ++ lineText)
  = Ok (stack ++ [spec_frame_B file lineText])%list.
Proof.
  intros Hfile Hline. unfold stackTracer2_entry, strings.Split.
  change (file ++ ":" ++ lineText) with (file ++ String ":" lineText).
  rewrite (split_facts.split_byte_first _ _ _ _ Hfile).
  rewrite (split_facts.split_from_none _ _ _ Hline).
  reflexivity.
Qed.

(** A string line with no colon has a single field, and asking for the
    second one panics; one such line anywhere aborts the whole loop. *)
Lemma stackTracer2_entry_without_colon (stack : StackTrace) (line : string) :
  strings.occurs ":" line = false ->
  stackTracer2_entry stack line = Panic (index_out_of_range 1 1).
Proof.
  intros Hline. unfold stackTracer2_entry, strings.Split.
  now rewrite (split_facts.split_from_none _ _ _ Hline).
Qed.

Lemma range_stackTracer2_without_colon (lines : list string) (line : string) :
  In line lines ->
  strings.occurs ":" line = false ->
  forall stack, exists p, range stackTracer2_entry lines stack = Panic p.
Proof.
  intros Hin Hline.
  induction lines as [|x lines IH]; intros stack; [contradiction|].
  cbn [range]. destruct Hin as [->|Hin].
  - rewrite (stackTracer2_entry_without_colon _ _ Hline). now eexists.
  - destruct (stackTracer2_entry stack x) as [stack'|p]; cbn [bind].
    + apply (IH Hin).
    + now eexists.
Qed.

(** ** The cause loop *)

(** Induction along the cause chain. *)
Lemma error_chain_ind (P : error -> Prop)
    (Hnil : P nil_error)
    (Hvalue : forall e, P (Error_value e))
    (Hend : forall m cl d s1 s2, P (dyn_error m None cl d s1 s2))
    (Hlink : forall m c cl d s1 s2, P c -> P (dyn_error m (Some c) cl d s1 s2)) :
  forall err, P err.
Proof.
  exact (fix chain (err : error) : P err :=
           match err with
           | nil_error => Hnil
           | Error_value e => Hvalue e
           | dyn_error m None cl d s1 s2 => Hend m cl d s1 s2
           | dyn_error m (Some c) cl d s1 s2 => Hlink m c cl d s1 s2 (chain c)
           end).
Qed.

Lemma cause_loop_depth (fuel : nat) :
  forall err steps,
    cause_loop fuel err steps
    = if (chain_depth err <? fuel)%nat
      then Some (chain_root err, (steps + chain_depth err)%nat)
      else None.
Proof.
  induction fuel as [|fuel IH]; intros err steps.
  - reflexivity.
  - cbn [cause_loop]. unfold cause_body.
    destruct err as [|e|m [c|] cl d s1 s2]; cbn [as_causer chain_depth chain_root];
      try (now rewrite Nat.add_0_r).
    destruct c as [|e'|m' c' cl' d' s1' s2']; cbn [is_nil].
    + now rewrite Nat.add_0_r.
    + rewrite IH. cbn [chain_depth chain_root].
      change (1 <? S fuel)%nat with (0 <? fuel)%nat.
      destruct (0 <? fuel)%nat; [do 2 f_equal; lia | reflexivity].
    + rewrite IH.
      change (S (chain_depth (dyn_error m' c' cl' d' s1' s2')) <? S fuel)%nat
        with (chain_depth (dyn_error m' c' cl' d' s1' s2') <? fuel)%nat.
      destruct (_ <? fuel)%nat; [do 2 f_equal; lia | reflexivity].
Qed.

Lemma cause_body_chain_root (err : error) : cause_body (chain_root err) = None.
Proof.
  induction err as [|e|m cl d s1 s2|m c cl d s1 s2 IH] using error_chain_ind;
    try reflexivity.
  destruct c; [reflexivity | exact IH | exact IH].
Qed.

(** The depth of a hand-built chain is its number of wrappers. *)
Lemma chain_link (m : string) (c : error) cl d s1 s2 :
  is_nil c = false ->
  chain_depth (dyn_error m (Some c) cl d s1 s2) = S (chain_depth c) /\
  chain_root (dyn_error m (Some c) cl d s1 s2) = chain_root c.
Proof. destruct c; [discriminate | split; reflexivity ..]. Qed.

Lemma chain_end (root : error) :
  cause_body root = None -> chain_depth root = O /\ chain_root root = root.
Proof.
  destruct root as [|e|m [c|] cl d s1 s2]; try (split; reflexivity).
  destruct c; [split; reflexivity | discriminate ..].
Qed.

Lemma wrap_all_not_nil (messages : list string) (root : error) :
  is_nil root = false -> is_nil (wrap_all messages root) = false.
Proof. now destruct messages. Qed.

Lemma cause_loop_wrap_all (messages : list string) (root : error) (fuel : nat) :
  is_nil root = false ->
  cause_body root = None ->
  (length messages < fuel)%nat ->
  cause_loop fuel (wrap_all messages root) 0 = Some (root, length messages).
Proof.
  intros Hroot Hend Hfuel.
  assert (H : chain_depth (wrap_all messages root) = length messages /\
              chain_root (wrap_all messages root) = root).
  { clear Hfuel. induction messages as [|m messages IH].
    - apply (chain_end _ Hend).
    - change (wrap_all (m :: messages) root)
        with (dyn_error m (Some (wrap_all messages root)) None None None None).
      destruct (chain_link m (wrap_all messages root) None None None None
                  (wrap_all_not_nil _ _ Hroot)) as [-> ->].
      destruct IH as [-> ->]. now split. }
  destruct H as [Hd Hr].
  rewrite cause_loop_depth, Hd, Hr.
  apply Nat.ltb_lt in Hfuel. now rewrite Hfuel.
Qed.

(** ** The claims *)

(** C1. Introspection is idempotent: [FromErr] returns a value that is
    already an [Error] unchanged, whatever the goroutine stack is, and
    applying [FromErr] to the result of [FromErr] gives that result
    again. *)
Theorem FromErr_idempotent :
  (forall rt e, FromErr rt (Error_value e) = Ok e) /\
  (forall rt rt' err,
      (e <- FromErr rt err ;; FromErr rt' (Error_value e)) = FromErr rt err).
Proof.
  split.
  - reflexivity.
  - intros rt rt' err. destruct (FromErr rt err); reflexivity.
Qed.

(** C2. The strategies are tried in a fixed order and the first that
    applies wins: with both stack-trace capabilities present the result
    is that of the structured-frame loop, the same as if the string-line
    capability were absent; the string-line loop runs when only that
    capability is present; and the result can depend on the captured
    goroutine stack only when neither capability is present. *)
Theorem stacktrace_strategy_order (rt : runtime) (m : string)
    (c : option error) (cl : option string) (d : option any)
    (a : list Frame) (b : list string) :
  stacktrace rt (dyn_error m c cl d (Some a) (Some b))
  = range stackTracer1_entry a [] /\
  stacktrace rt (dyn_error m c cl d (Some a) (Some b))
  = stacktrace rt (dyn_error m c cl d (Some a) None) /\
  stacktrace rt (dyn_error m c cl d None (Some b))
  = range stackTracer2_entry b [] /\
  (forall err rt',
      stacktrace rt err <> stacktrace rt' err ->
      as_stackTracer1 err = None /\ as_stackTracer2 err = None).
Proof.
  repeat split; unfold stacktrace in *.
  - destruct (as_stackTracer1 err); [congruence | reflexivity].
  - destruct (as_stackTracer1 err); [congruence|].
    destruct (as_stackTracer2 err); [congruence | reflexivity].
Qed.

(** C3. Cause resolution follows [Cause()] while the capability is present
    and its result is not nil; a nil cause and a missing capability both
    end the loop, nil itself comes back at once, and the loop ends after
    exactly as many assignments as the chain is deep: it is still running
    with less fuel, and with more it returns the end of the chain. *)
Theorem cause_terminates_at_chain_depth (err : error) (fuel : nat) :
  cause_loop fuel err 0
  = (if (chain_depth err <? fuel)%nat
     then Some (chain_root err, chain_depth err) else None) /\
  cause_body (chain_root err) = None /\
  cause (S fuel) nil_error = Some nil_error /\
  (forall m cl d s1 s2,
      cause_loop (S fuel) (dyn_error m (Some nil_error) cl d s1 s2) 0
      = Some (dyn_error m (Some nil_error) cl d s1 s2, 0%nat)) /\
  (as_causer err = None -> cause_loop (S fuel) err 0 = Some (err, 0%nat)) /\
  (forall c, as_causer err = Some c -> is_nil c = false ->
             cause_loop (S fuel) err 0 = cause_loop fuel c 1).
Proof.
  repeat split.
  - apply cause_loop_depth.
  - apply cause_body_chain_root.
  - intros H. cbn [cause_loop]. unfold cause_body. now rewrite H.
  - intros c Hc Hnil. cbn [cause_loop]. unfold cause_body. now rewrite Hc, Hnil.
Qed.

(** C4. A string line without a colon makes [FromErr] panic: the second
    field of the split does not exist. *)
Theorem FromErr_panics_on_line_without_colon (rt : runtime) :
  FromErr rt message_only_lines = Panic (index_out_of_range 1 1).
Proof. reflexivity. Qed.

(** C5. For the wrapped error of [TestFromErr] the message is that of the
    outermost wrapping, the cause chain ends at the error whose text is
    [new error], and [InnerError] is left empty. *)
Theorem FromErr_wrapped_leaves_InnerError_empty (rt : runtime) :
  exists wrapped r,
    pkerr.Wrap (pkerr.New "new error" new_callers) "wrapped err" wrap_callers = Ok wrapped /\
    FromErr rt wrapped = Ok r /\
    Message r = "wrapped err: new error" /\
    option_map error_Error (cause 3 wrapped) = Some (Ok "new error") /\
    InnerError r = "" /\
    InnerError r <> "new error".
Proof.
  eexists. eexists. repeat split; try reflexivity.
  cbn. discriminate.
Qed.

(** The package name of [spec_frame_A] is what stands before the last dot
    of the symbol. *)
Lemma spec_frame_A_package (line : Frame) (pkg sym suffix : string) :
  strings.occurs "." sym = false ->
  PackageName (spec_frame_A line (pkg ++ "." ++ sym) suffix) = pkg.
Proof.
  intros Hsym. cbn [spec_frame_A PackageName].
  apply (split_facts.Join_init_Split_byte "."%char pkg sym Hsym).
Qed.

(** C6. For a sequence of structured descriptors, whose file renderings
    each read prefix, newline, tab, suffix, the extractor returns one
    frame per descriptor, in order: the line number is the decimal value
    of the line rendering or -1, the file name is the suffix, the package
    name is the prefix without its last dot-separated segment, the method
    name is the name rendering. *)
Theorem stacktrace_structured_frames (rt : runtime) (m : string)
    (c : option error) (cl : option string) (d : option any)
    (b : option (list string)) (s : list Frame) (shapes : list (string * string)) :
  Forall2 has_shape_A s shapes ->
  stacktrace rt (dyn_error m c cl d (Some s) b)
  = Ok (map (fun ls => spec_frame_A (fst ls) (fst (snd ls)) (snd (snd ls)))
            (combine s shapes)) /\
  length (map (fun ls => spec_frame_A (fst ls) (fst (snd ls)) (snd (snd ls)))
              (combine s shapes)) = length s.
Proof.
  intros Hshapes. split.
  - unfold stacktrace. cbn [as_stackTracer1].
    now rewrite (range_stackTracer1 _ _ Hshapes).
  - rewrite length_map, length_combine.
    apply Forall2_length in Hshapes. lia.
Qed.

Lemma stacktrace_structured_frames_witness :
  Forall2 has_shape_A
    [ go_frame "72" "github.com/codeclysm/raygun_test.wrapErr" "/go/src/raygun_test.go" "wrapErr";
      go_frame "?" "main.(*server).run" "/srv/main.go" "(*server).run" ]
    [ ("github.com/codeclysm/raygun_test.wrapErr", "/go/src/raygun_test.go");
      ("main.(*server).run", "/srv/main.go") ] /\
  stacktrace test_runtime
    (dyn_error "boom" None None None
       (Some [ go_frame "72" "github.com/codeclysm/raygun_test.wrapErr" "/go/src/raygun_test.go" "wrapErr";
               go_frame "?" "main.(*server).run" "/srv/main.go" "(*server).run" ])
       None)
  = Ok [ raw_frame 72 "github.com/codeclysm/raygun_test" "/go/src/raygun_test.go" "wrapErr";
         raw_frame (-1) "main.(*server)" "/srv/main.go" "(*server).run" ].
Proof.
  assert (H : Forall2 has_shape_A
    [ go_frame "72" "github.com/codeclysm/raygun_test.wrapErr" "/go/src/raygun_test.go" "wrapErr";
      go_frame "?" "main.(*server).run" "/srv/main.go" "(*server).run" ]
    [ ("github.com/codeclysm/raygun_test.wrapErr", "/go/src/raygun_test.go");
      ("main.(*server).run", "/srv/main.go") ]).
  { repeat constructor. }
  split; [exact H|].
  exact (proj1 (stacktrace_structured_frames test_runtime "boom" None None None None _ _ H)).
Defined.

(** C7. In the fallback the returned trace is the parsed sequence
    without its first two frames, the frame of [stacktrace] and that of
    its caller, which every captured stack begins with. *)
Theorem stacktrace_fallback_drops_two (rt : runtime) (err : error) :
  as_stackTracer1 err = None ->
  as_stackTracer2 err = None ->
  (2 <= length (parsed_stack rt))%nat ->
  stacktrace rt err = Ok (skipn 2 (parsed_stack rt)).
Proof.
  intros H1 H2 Hlen. unfold stacktrace, slice_from. rewrite H1, H2.
  cbn [app]. apply Nat.leb_le in Hlen. now rewrite Hlen.
Qed.

Lemma stacktrace_fallback_drops_two_witness :
  stacktrace test_runtime (errors_New "new error")
  = Ok [ raw_frame 60 "github.com/codeclysm/raygun_test" "raygun_test.go" "TestFromErr";
         raw_frame 610 "testing" "testing.go" "tRunner";
         raw_frame 2086 "runtime" "asm_amd64.s" "goexit" ].
Proof.
  apply (stacktrace_fallback_drops_two test_runtime (errors_New "new error")).
  - reflexivity.
  - reflexivity.
  - simpl. lia.
Defined.

(** C8. A stack-trace capability that is present and returns no element
    gives the empty trace whatever the goroutine stack holds; the same
    error without the capability gets the captured frames. *)
Theorem stacktrace_empty_sequence (rt : runtime) (m : string)
    (c : option error) (cl : option string) (d : option any) :
  (forall b, stacktrace rt (dyn_error m c cl d (Some []) b) = Ok []) /\
  stacktrace rt (dyn_error m c cl d None (Some [])) = Ok [] /\
  stacktrace test_runtime (dyn_error m c cl d None None)
  = Ok (skipn 2 (parsed_stack test_runtime)).
Proof. repeat split. Qed.

(** C9. The data probe asserts the method [data], not the documented
    [Data]: for an error that has [Data()] returning a value other than
    nil, and whose type is declared outside this package or has no method
    named [data], the probe returns nil and the report carries no data. *)
Theorem data_misses_documented_Data (T : dynamic_type) (v : any) :
  method T "Data" = Some v ->
  v <> any_nil ->
  String.eqb (declared_in T) this_package = false \/ method T "data" = None ->
  data (error_of_type T) = any_nil /\
  data (error_of_type T) <> v /\
  (forall rt r, FromErr rt (error_of_type T) = Ok r -> Data r = any_nil).
Proof.
  intros _ Hv Hmiss.
  assert (Hd : data (error_of_type T) = any_nil).
  { unfold data, error_of_type, implements_dataer. cbn [as_dataer].
    destruct (String.eqb (declared_in T) this_package); [|reflexivity].
    destruct Hmiss as [Hpkg|Hname]; [discriminate Hpkg | now rewrite Hname]. }
  repeat split.
  - exact Hd.
  - rewrite Hd. congruence.
  - intros rt r. cbn [FromErr error_of_type]. unfold rayerr. cbn [error_Error bind].
    destruct (stacktrace rt _); cbn [bind]; [|discriminate].
    intros [= <-]. exact Hd.
Qed.

Lemma data_misses_documented_Data_witness :
  data (error_of_type payload_type) = any_nil /\
  data (error_of_type payload_type) <> any_string "order 42" /\
  (forall rt r, FromErr rt (error_of_type payload_type) = Ok r -> Data r = any_nil).
Proof.
  apply (data_misses_documented_Data payload_type (any_string "order 42")).
  - reflexivity.
  - discriminate.
  - left. reflexivity.
Defined.

(** C10. The text of an [Error] is its message, and building the report
    for it without the short-circuit keeps that message. *)
Theorem Error_Error_is_Message (e : Error) :
  Error_Error e = Message e /\
  error_Error (Error_value e) = Ok (Message e) /\
  error_Error (Error_pointer e) = Ok (Message e) /\
  (forall rt r, rayerr rt (Error_value e) = Ok r -> Message r = Message e) /\
  (forall rt r, FromErr rt (Error_pointer e) = Ok r -> Message r = Message e) /\
  (exists r, rayerr test_runtime (Error_value e) = Ok r /\ Message r = Message e).
Proof.
  repeat split.
  - intros rt r. unfold rayerr. cbn [error_Error bind].
    destruct (stacktrace rt (Error_value e)); cbn [bind]; [|discriminate].
    intros [= <-]. reflexivity.
  - intros rt r. cbn [FromErr Error_pointer]. unfold rayerr. cbn [error_Error bind].
    destruct (stacktrace _ _); cbn [bind]; [|discriminate].
    intros [= <-]. reflexivity.
  - eexists. split; reflexivity.
Qed.

(** * Further properties of the package *)

(** ** When the frame loops succeed *)

Lemma split_from_occurs (c : ascii) (sep' s cur : string) :
  strings.occurs (String c sep') s = true ->
  (2 <= length (strings.split_from (String c sep') 0 cur s))%nat.
Proof.
  revert cur; induction s as [|x s IH]; intros cur H.
  - discriminate.
  - cbn [strings.occurs] in H. cbn [strings.split_from].
    destruct (prefix (String c sep') (String x s)) eqn:Hp.
    + pose proof (split_facts.split_from_nonempty (String c sep')
                    (String.length (String c sep') - 1) "" s) as Hne.
      destruct (strings.split_from _ _ "" s); [congruence | simpl; lia].
    + apply IH. exact H.
Qed.

Lemma Split_occurs (c : ascii) (sep' s : string) :
  strings.occurs (String c sep') s = true ->
  exists a b rest, strings.Split s (String c sep') = a :: b :: rest.
Proof.
  intros H. pose proof (split_from_occurs c sep' s "" H) as Hlen.
  unfold strings.Split.
  destruct (strings.split_from _ 0 "" s) as [|a [|b rest]]; simpl in Hlen; try lia.
  now exists a, b, rest.
Qed.

Lemma stackTracer2_entry_exact (stack : StackTrace) (line : string) :
  stackTracer2_entry stack line
  = if strings.occurs ":" line
    then Ok (stack ++ [frame_of_string_line line])%list
    else Panic (index_out_of_range 1 1).
Proof.
  destruct (strings.occurs ":" line) eqn:H.
  - destruct (Split_occurs _ _ _ H) as (a & b & rest & Hs).
    unfold stackTracer2_entry, frame_of_string_line. rewrite Hs. reflexivity.
  - now apply stackTracer2_entry_without_colon.
Qed.

Lemma stackTracer1_entry_exact (stack : StackTrace) (line : Frame) :
  stackTracer1_entry stack line
  = if strings.occurs newline_tab (fmt_plus_s line)
    then Ok (stack ++ [frame_of_descriptor line])%list
    else Panic (index_out_of_range 1 1).
Proof.
  unfold stackTracer1_entry, frame_of_descriptor.
  destruct (strings.occurs newline_tab (fmt_plus_s line)) eqn:H.
  - destruct (Split_occurs _ _ _ H) as (a & b & rest & Hs).
    fold newline_tab in Hs. rewrite Hs. cbn [index nth_error bind nth].
    rewrite slice_to_init by apply split_facts.Split_length_pos.
    reflexivity.
  - assert (Hs : strings.Split (fmt_plus_s line) newline_tab = [fmt_plus_s line]).
    { unfold strings.Split. now rewrite (split_facts.split_from_none _ _ _ H). }
    rewrite Hs. cbn [index nth_error bind].
    rewrite slice_to_init by apply split_facts.Split_length_pos.
    reflexivity.
Qed.

Lemma range_map_or_panic {A : Type} (body : StackTrace -> A -> go StackTrace)
    (ok : A -> bool) (frame : A -> StackTraceElement) (p : panic) :
  (forall stack x,
      body stack x = if ok x then Ok (stack ++ [frame x])%list else Panic p) ->
  forall xs stack,
    range body xs stack
    = if forallb ok xs then Ok (stack ++ map frame xs)%list else Panic p.
Proof.
  intros Hbody xs. induction xs as [|x xs IH]; intros stack; cbn [range forallb map].
  - now rewrite app_nil_r.
  - rewrite Hbody. destruct (ok x); cbn [bind andb]; [|reflexivity].
    rewrite IH. destruct (forallb ok xs); [|reflexivity].
    now rewrite <- app_assoc.
Qed.

(** X1. The string-line strategy succeeds exactly when every line has a
    colon; it then returns one frame per line, in order, each with empty
    package and method name; otherwise it panics on the missing second
    field. *)
Theorem stacktrace_string_lines_exact (rt : runtime) (m : string)
    (c : option error) (cl : option string) (d : option any) (lines : list string) :
  stacktrace rt (dyn_error m c cl d None (Some lines))
  = if forallb (strings.occurs ":") lines
    then Ok (map frame_of_string_line lines)
    else Panic (index_out_of_range 1 1).
Proof.
  unfold stacktrace. cbn [as_stackTracer1 as_stackTracer2].
  apply (range_map_or_panic stackTracer2_entry (strings.occurs ":")
           frame_of_string_line _ stackTracer2_entry_exact lines []).
Qed.

(** X2. The structured strategy succeeds exactly when every file
    rendering contains newline+tab; it then returns one frame per
    descriptor, in order; otherwise it panics on the missing second
    field. *)
Theorem stacktrace_structured_exact (rt : runtime) (m : string)
    (c : option error) (cl : option string) (d : option any)
    (b : option (list string)) (s : list Frame) :
  stacktrace rt (dyn_error m c cl d (Some s) b)
  = if forallb (fun line => strings.occurs newline_tab (fmt_plus_s line)) s
    then Ok (map frame_of_descriptor s)
    else Panic (index_out_of_range 1 1).
Proof.
  unfold stacktrace. cbn [as_stackTracer1].
  apply (range_map_or_panic stackTracer1_entry
           (fun line => strings.occurs newline_tab (fmt_plus_s line))
           frame_of_descriptor _ stackTracer1_entry_exact s []).
Qed.

(** ** Decimal renderings read back *)

Lemma digits_of_uint_acc (d : Decimal.uint) :
  forall acc : positive,
    strconv.digits (Zpos acc) (DecimalString.NilEmpty.string_of_uint d)
    = Some (Zpos (Pos.of_uint_acc d acc)).
Proof.
  induction d as [|d IH|d IH|d IH|d IH|d IH|d IH|d IH|d IH|d IH|d IH]; intros acc;
    cbn [DecimalString.NilEmpty.string_of_uint strconv.digits Pos.of_uint_acc];
    [reflexivity | ..];
    match goal with
    | |- context [strconv.digit ?c] =>
        let v := eval vm_compute in (strconv.digit c) in
        change (strconv.digit c) with v
    end;
    cbv iota beta; rewrite <- IH; f_equal; lia.
Qed.

Lemma digits_of_uint (d : Decimal.uint) :
  strconv.digits 0 (DecimalString.NilEmpty.string_of_uint d)
  = Some (Z.of_N (Pos.of_uint d)).
Proof.
  induction d as [|d IH|d IH|d IH|d IH|d IH|d IH|d IH|d IH|d IH|d IH];
    cbn [DecimalString.NilEmpty.string_of_uint strconv.digits Pos.of_uint];
    [reflexivity | exact IH | ..];
    match goal with
    | |- context [strconv.digit ?c] =>
        let v := eval vm_compute in (strconv.digit c) in
        change (strconv.digit c) with v
    end;
    cbv iota beta; apply digits_of_uint_acc.
Qed.

(** A string that starts with a digit is read without a sign. *)
Lemma Atoi_starts_with_digit (c : ascii) (s : string) (d : Z) :
  strconv.digit c = Some d ->
  strconv.Atoi (String c s)
  = match strconv.digits 0 (String c s) with
    | Some n => if strconv.in_int_range n then Some n else None
    | None => None
    end.
Proof.
  intros H.
  destruct c as [[] [] [] [] [] [] [] []]; vm_compute in H; try discriminate H;
    reflexivity.
Qed.

Lemma string_of_uint_starts_with_digit (u : Decimal.uint) :
  u <> Decimal.Nil ->
  exists c s d,
    DecimalString.NilEmpty.string_of_uint u = String c s /\ strconv.digit c = Some d.
Proof.
  intros Hu. destruct u; [congruence | ..];
    cbn [DecimalString.NilEmpty.string_of_uint];
    do 3 eexists; (split; [reflexivity | vm_compute; reflexivity]).
Qed.

Lemma unsigned_to_uint (p : positive) :
  strconv.digits 0 (DecimalString.NilEmpty.string_of_uint (Pos.to_uint p))
  = Some (Zpos p).
Proof. now rewrite digits_of_uint, DecimalPos.Unsigned.of_to. Qed.

Lemma NilZero_to_uint (p : positive) :
  DecimalString.NilZero.string_of_uint (Pos.to_uint p)
  = DecimalString.NilEmpty.string_of_uint (Pos.to_uint p).
Proof.
  pose proof (DecimalPos.Unsigned.to_uint_nonnil p) as H.
  unfold DecimalString.NilZero.string_of_uint.
  destruct (Pos.to_uint p); [congruence | reflexivity ..].
Qed.

(** What [Sprintf] writes for an [int] under the verb d, [Atoi] reads
    back as the same number. *)
Lemma Atoi_Sprintf_d (n : Z) :
  strconv.in_int_range n = true ->
  strconv.Atoi (Sprintf_d n) = Some n.
Proof.
  intros Hrange. destruct n as [|p|p].
  - reflexivity.
  - unfold Sprintf_d. cbn [Z.to_int DecimalString.NilZero.string_of_int].
    rewrite NilZero_to_uint.
    destruct (string_of_uint_starts_with_digit (Pos.to_uint p)
                (DecimalPos.Unsigned.to_uint_nonnil p)) as (c & s & d & Hs & Hc).
    pose proof (unsigned_to_uint p) as Hd. rewrite Hs in Hd |- *.
    rewrite (Atoi_starts_with_digit _ _ _ Hc), Hd. now rewrite Hrange.
  - unfold Sprintf_d. cbn [Z.to_int DecimalString.NilZero.string_of_int].
    rewrite NilZero_to_uint.
    destruct (string_of_uint_starts_with_digit (Pos.to_uint p)
                (DecimalPos.Unsigned.to_uint_nonnil p)) as (c & s & d & Hs & Hc).
    pose proof (unsigned_to_uint p) as Hd. rewrite Hs in Hd |- *.
    unfold strconv.Atoi, strconv.unsigned. rewrite Hd.
    cbn [option_map Z.opp]. now rewrite Hrange.
Qed.

(** X3. A descriptor whose line rendering is the decimal text of an
    [int] gets that number as its line number: the -1 of a failed parse
    does not occur for it. *)
Theorem structured_line_number (rt : runtime) (m : string)
    (c : option error) (cl : option string) (d : option any)
    (b : option (list string)) (s : list Frame) (ns : list Z) :
  Forall2 (fun line n => strconv.in_int_range n = true /\ fmt_d line = Sprintf_d n) s ns ->
  forallb (fun line => strings.occurs newline_tab (fmt_plus_s line)) s = true ->
  exists frames,
    stacktrace rt (dyn_error m c cl d (Some s) b) = Ok frames /\
    map LineNumber frames = ns.
Proof.
  intros Hlines Hsep. exists (map frame_of_descriptor s). split.
  - rewrite stacktrace_structured_exact. now rewrite Hsep.
  - clear Hsep. induction Hlines as [|line n s ns [Hrange Hd] _ IH]; [reflexivity|].
    cbn [map]. rewrite IH. f_equal.
    cbn [frame_of_descriptor LineNumber]. unfold line_or_minus_one.
    now rewrite Hd, (Atoi_Sprintf_d _ Hrange).
Qed.

Lemma structured_line_number_witness :
  exists frames,
    stacktrace test_runtime
      (dyn_error "boom" None None None
         (Some [ go_frame (Sprintf_d 72) "main.run" "/srv/main.go" "run";
                 go_frame (Sprintf_d (-9223372036854775808)) "main.main" "/srv/main.go" "main" ])
         None) = Ok frames /\
    map LineNumber frames = [72; -9223372036854775808].
Proof.
  apply (structured_line_number test_runtime "boom" None None None None
           [ go_frame (Sprintf_d 72) "main.run" "/srv/main.go" "run";
             go_frame (Sprintf_d (-9223372036854775808)) "main.main" "/srv/main.go" "main" ]
           [72; -9223372036854775808]).
  - repeat constructor.
  - reflexivity.
Defined.

(** ** Fields of the frames *)

Lemma occurs_byte_middle (c : ascii) (a b : string) :
  strings.occurs (String c "") (a ++ String c b) = true.
Proof.
  induction a as [|x a IH]; cbn [append strings.occurs].
  - rewrite split_facts.prefix_one_byte.
    destruct (ascii_dec c c); [reflexivity | congruence].
  - rewrite IH. apply orb_true_r.
Qed.

Lemma occurs_byte_append (c : ascii) (a b : string) :
  strings.occurs (String c "") (a ++ b)
  = strings.occurs (String c "") a || strings.occurs (String c "") b.
Proof.
  induction a as [|x a IH]; cbn [append].
  - destruct b; reflexivity.
  - cbn [strings.occurs]. rewrite !split_facts.prefix_one_byte, IH.
    now rewrite orb_assoc.
Qed.

Lemma frame_of_string_line_fields (file lineText rest : string) :
  strings.occurs ":" file = false ->
  strings.occurs ":" lineText = false ->
  frame_of_string_line (file ++ ":" ++ lineText) = spec_frame_B file lineText /\
  frame_of_string_line (file ++ ":" ++ lineText ++ ":" ++ rest) = spec_frame_B file lineText.
Proof.
  intros Hfile Hline. unfold frame_of_string_line, strings.Split. split.
  - change (file ++ ":" ++ lineText) with (file ++ String ":" lineText).
    rewrite (split_facts.split_byte_first _ _ _ _ Hfile).
    rewrite (split_facts.split_from_none _ _ _ Hline). reflexivity.
  - change (file ++ ":" ++ lineText ++ ":" ++ rest)
      with (file ++ String ":" (lineText ++ String ":" rest)).
    rewrite (split_facts.split_byte_first _ _ _ _ Hfile).
    rewrite (split_facts.split_byte_first _ _ _ _ Hline). reflexivity.
Qed.

(** X4. Lines of the form file, colon, line, optionally followed by a
    colon and any text (the message juju/errors appends), give one frame
    each with that file name and the parsed line number, -1 when the line
    field is not a number; the text after the second colon is ignored. *)
Theorem string_lines_with_message (rt : runtime) (m : string)
    (c : option error) (cl : option string) (d : option any)
    (entries : list (string * string * option string)) :
  Forall (fun e => strings.occurs ":" (fst (fst e)) = false /\
                   strings.occurs ":" (snd (fst e)) = false) entries ->
  stacktrace rt
    (dyn_error m c cl d None
       (Some (map (fun e => match snd e with
                            | Some text => fst (fst e) ++ ":" ++ snd (fst e) ++ ":" ++ text
                            | None => fst (fst e) ++ ":" ++ snd (fst e)
                            end) entries)))
  = Ok (map (fun e => spec_frame_B (fst (fst e)) (snd (fst e))) entries).
Proof.
  intros Hentries. rewrite stacktrace_string_lines_exact.
  set (render := fun e : string * string * option string =>
                   match snd e with
                   | Some text => fst (fst e) ++ ":" ++ snd (fst e) ++ ":" ++ text
                   | None => fst (fst e) ++ ":" ++ snd (fst e)
                   end).
  assert (H : forall e : string * string * option string,
             strings.occurs ":" (fst (fst e)) = false ->
             strings.occurs ":" (snd (fst e)) = false ->
             strings.occurs ":" (render e) = true /\
             frame_of_string_line (render e) = spec_frame_B (fst (fst e)) (snd (fst e))).
  { intros [[file lineText] [text|]] Hf Hl; unfold render; cbn [fst snd] in *; split.
    - apply (occurs_byte_middle ":" file (lineText ++ ":" ++ text)).
    - apply (frame_of_string_line_fields file lineText text Hf Hl).
    - apply (occurs_byte_middle ":" file lineText).
    - apply (frame_of_string_line_fields file lineText "" Hf Hl). }
  assert (Hall : forallb (strings.occurs ":") (map render entries) = true /\
                 map frame_of_string_line (map render entries)
                 = map (fun e => spec_frame_B (fst (fst e)) (snd (fst e))) entries).
  { induction Hentries as [|e entries [Hf Hl] _ [IH1 IH2]]; [split; reflexivity|].
    cbn [map forallb]. destruct (H e Hf Hl) as [Ho Hfr].
    rewrite Ho, Hfr, IH1, IH2. split; reflexivity. }
  destruct Hall as [-> ->]. reflexivity.
Qed.

Lemma string_lines_with_message_witness :
  stacktrace test_runtime
    (dyn_error "wrapped err: new error" None None None None
       (Some [ "raygun_test.go:41: new error"; "raygun_test.go:x7"; "util.go:98" ]))
  = Ok [ raw_frame 41 "" "raygun_test.go" "";
         raw_frame (-1) "" "raygun_test.go" "";
         raw_frame 98 "" "util.go" "" ].
Proof.
  apply (string_lines_with_message test_runtime "wrapped err: new error" None None None
           [ ("raygun_test.go", "41", Some " new error");
             ("raygun_test.go", "x7", None);
             ("util.go", "98", None) ]).
  repeat constructor.
Defined.

(** X5. For a descriptor whose file rendering is symbol, newline+tab,
    file, the frame has that file name, and its package name is the part
    of the symbol before its last dot: the whole of [pkg] for a symbol
    [pkg.sym] with no dot in [sym] (a receiver type stays in the package
    name), and the empty string for a symbol without a dot. *)
Theorem structured_package_name (rt : runtime) (m : string)
    (c : option error) (cl : option string) (d : option any)
    (b : option (list string)) (line : Frame) (symbol file : string) :
  fmt_plus_s line = symbol ++ newline_tab ++ file ->
  strings.occurs newline_tab symbol = false ->
  strings.occurs newline_tab file = false ->
  exists f,
    stacktrace rt (dyn_error m c cl d (Some [line]) b) = Ok [f] /\
    FileName f = file /\
    (forall pkg sym, symbol = pkg ++ "." ++ sym -> strings.occurs "." sym = false ->
                     PackageName f = pkg) /\
    (strings.occurs "." symbol = false -> PackageName f = "").
Proof.
  intros Hfile Hsymbol Hsuffix.
  exists (spec_frame_A line symbol file). repeat split.
  - unfold stacktrace. cbn [as_stackTracer1 range].
    rewrite (stackTracer1_entry_shape [] line (symbol, file)); [reflexivity|].
    now repeat split.
  - intros pkg sym -> Hsym. now apply spec_frame_A_package.
  - intros Hdot. cbn [spec_frame_A PackageName]. unfold strings.Split.
    now rewrite (split_facts.split_from_none _ _ _ Hdot).
Qed.

Lemma structured_package_name_witness :
  exists f,
    stacktrace test_runtime
      (dyn_error "boom" None None None
         (Some [ go_frame "12" "main.(*server).run" "/srv/main.go" "(*server).run" ]) None)
    = Ok [f] /\
    FileName f = "/srv/main.go" /\
    (forall pkg sym, "main.(*server).run" = pkg ++ "." ++ sym ->
                     strings.occurs "." sym = false -> PackageName f = pkg) /\
    (strings.occurs "." "main.(*server).run" = false -> PackageName f = "").
Proof.
  apply (structured_package_name test_runtime "boom" None None None None
           (go_frame "12" "main.(*server).run" "/srv/main.go" "(*server).run")
           "main.(*server).run" "/srv/main.go"); reflexivity.
Defined.

(** ** FromErr *)

(** X6. [FromErr] never follows [Cause()]: the report of an error does
    not depend on what it wraps, so class and data of a wrapped error are
    not found through a wrapper that has none. *)
Theorem FromErr_ignores_cause (rt : runtime) (m : string)
    (c c' : option error) (cl : option string) (d : option any)
    (s1 : option (list Frame)) (s2 : option (list string)) :
  FromErr rt (dyn_error m c cl d s1 s2) = FromErr rt (dyn_error m c' cl d s1 s2) /\
  (forall r, FromErr rt (dyn_error m c None None s1 s2) = Ok r ->
             ClassName r = "" /\ Data r = any_nil).
Proof.
  split; [reflexivity|].
  intros r. cbn [FromErr]. unfold rayerr. cbn [error_Error bind].
  destruct (stacktrace rt _); cbn [bind]; [|discriminate].
  intros [= <-]. split; reflexivity.
Qed.

(** ** cause *)

(** X8. What [cause] returns has no further cause, so resolving it again
    returns it at once; and it is nil only when the input was nil. *)
Theorem cause_result_is_final (fuel : nat) (err r : error) :
  cause fuel err = Some r ->
  cause_body r = None /\
  (forall fuel', cause (S fuel') r = Some r) /\
  (is_nil r = true -> is_nil err = true).
Proof.
  unfold cause. rewrite cause_loop_depth.
  destruct (chain_depth err <? fuel)%nat; [|discriminate].
  cbn [option_map fst]. intros [= <-].
  pose proof (cause_body_chain_root err) as Hroot.
  repeat split.
  - exact Hroot.
  - intros fuel'. cbn [cause_loop]. now rewrite Hroot.
  - clear Hroot.
    induction err as [|e|m cl d s1 s2|m c cl d s1 s2 IH] using error_chain_ind;
      try (intros H; exact H).
    destruct c; [intros H; exact H | discriminate | ].
    intros H. apply IH in H. discriminate H.
Qed.

Lemma cause_result_is_final_witness :
  cause_body (errors_New "new error") = None /\
  (forall fuel', cause (S fuel') (errors_New "new error") = Some (errors_New "new error")) /\
  (is_nil (errors_New "new error") = true ->
   is_nil (wrap_all ["outer"; "inner"] (errors_New "new error")) = true).
Proof.
  apply (cause_result_is_final 3 (wrap_all ["outer"; "inner"] (errors_New "new error"))).
  reflexivity.
Defined.

(** X9. For a chain of wrappers built around a root that is not nil and
    has no cause, [cause] returns the root, and it needs one pass of its
    loop per wrapper and one more: with fewer passes it has not
    returned. *)
Theorem cause_of_wrappers (messages : list string) (root : error) :
  is_nil root = false ->
  cause_body root = None ->
  cause (S (length messages)) (wrap_all messages root) = Some root /\
  cause (length messages) (wrap_all messages root) = None.
Proof.
  intros Hroot Hend. unfold cause. split.
  - rewrite (cause_loop_wrap_all messages root (S (length messages)) Hroot Hend);
      [reflexivity | lia].
  - pose proof (cause_loop_wrap_all messages root (S (length messages)) Hroot Hend
                  (Nat.lt_succ_diag_r _)) as H.
    rewrite cause_loop_depth in H |- *.
    destruct (chain_depth (wrap_all messages root) <? S (length messages))%nat eqn:Hlt;
      [|discriminate].
    injection H as _ Hd. cbn [Nat.add] in Hd. rewrite Hd.
    now rewrite Nat.ltb_irrefl.
Qed.

Lemma cause_of_wrappers_witness :
  cause 3 (wrap_all ["outer"; "inner"] (errors_New "new error"))
  = Some (errors_New "new error") /\
  cause 2 (wrap_all ["outer"; "inner"] (errors_New "new error")) = None.
Proof.
  apply (cause_of_wrappers ["outer"; "inner"] (errors_New "new error")); reflexivity.
Defined.

(** ** StackTrace.String *)

Lemma String_from (s : StackTrace) :
  forall out,
    fold_left (fun out line => out ++ Sprintf_line line) s out
    = out ++ StackTrace_String s.
Proof.
  unfold StackTrace_String.
  induction s as [|line s IH]; intros out; cbn [fold_left].
  - now rewrite append_empty_r.
  - rewrite IH, (IH ("" ++ Sprintf_line line)). cbn [append].
    now rewrite append_assoc.
Qed.

(** X10. [String] writes the frames one after the other: the text of a
    trace with an entry added is the text of the trace followed by the
    line of that entry, and the text of two traces joined is the two texts
    joined. *)
Theorem StackTrace_String_AddEntry (s t : StackTrace) (lineNumber : Z)
    (packageName fileName methodName : string) :
  StackTrace_String (AddEntry s lineNumber packageName fileName methodName)
  = StackTrace_String s
    ++ packageName ++ "/" ++ fileName ++ ":" ++ Sprintf_d lineNumber ++ newline /\
  StackTrace_String (s ++ t)%list = StackTrace_String s ++ StackTrace_String t.
Proof.
  assert (Happ : forall a b : StackTrace,
             StackTrace_String (a ++ b)%list = StackTrace_String a ++ StackTrace_String b).
  { intros a b. unfold StackTrace_String at 1. rewrite fold_left_app.
    fold (StackTrace_String a). apply String_from. }
  split; [|apply Happ].
  unfold AddEntry. rewrite Happ. reflexivity.
Qed.

Lemma occurs_colon_digits (d : Decimal.uint) :
  strings.occurs ":" (DecimalString.NilEmpty.string_of_uint d) = false.
Proof.
  induction d; cbn [DecimalString.NilEmpty.string_of_uint strings.occurs];
    [reflexivity | ..];
    rewrite split_facts.prefix_one_byte, IHd;
    match goal with
    | |- context [ascii_dec ?a ?b] => destruct (ascii_dec a b) as [E|_]
    end; (discriminate E || reflexivity).
Qed.

Lemma occurs_colon_Sprintf_d (n : Z) : strings.occurs ":" (Sprintf_d n) = false.
Proof.
  unfold Sprintf_d. destruct n as [|p|p]; [reflexivity | ..];
    cbn [Z.to_int DecimalString.NilZero.string_of_int]; rewrite NilZero_to_uint.
  - apply occurs_colon_digits.
  - cbn [strings.occurs]. rewrite split_facts.prefix_one_byte, occurs_colon_digits.
    destruct (ascii_dec ":" "-") as [E|_]; [discriminate E | reflexivity].
Qed.

(** X11. The lines [String] writes are lines the string-line strategy
    reads: for frames whose names have no colon and whose line numbers are
    [int]s, the text is the lines each ended by a newline, and the lines
    give back one frame each with the same line number and with
    package/file as its file name. *)
Theorem String_lines_read_back (rt : runtime) (m : string)
    (c : option error) (cl : option string) (d : option any) (s : StackTrace) :
  Forall (fun f => strings.occurs ":" (PackageName f) = false /\
                   strings.occurs ":" (FileName f) = false /\
                   strconv.in_int_range (LineNumber f) = true) s ->
  StackTrace_String s
  = fold_right (fun f rest => line_text f ++ newline ++ rest) "" s /\
  stacktrace rt (dyn_error m c cl d None (Some (map line_text s)))
  = Ok (map read_back s).
Proof.
  intros Hs. split.
  - clear Hs. induction s as [|f s IH]; [reflexivity|].
    change (f :: s) with ([f] ++ s)%list.
    rewrite (proj2 (StackTrace_String_AddEntry [f] s 0 "" "" "")), IH.
    cbn [fold_right app]. unfold StackTrace_String. cbn [fold_left append].
    unfold Sprintf_line, line_text. now rewrite !append_assoc.
  - rewrite stacktrace_string_lines_exact.
    assert (Hall : forallb (strings.occurs ":") (map line_text s) = true /\
                   map frame_of_string_line (map line_text s) = map read_back s).
    { induction Hs as [|f s (Hp & Hf & Hn) _ [IH1 IH2]]; [split; reflexivity|].
      cbn [map forallb]. rewrite IH1, IH2.
      assert (Hname : strings.occurs ":" (PackageName f ++ "/" ++ FileName f) = false).
      { rewrite !occurs_byte_append, Hp, Hf. reflexivity. }
      assert (Htext : line_text f
                      = (PackageName f ++ "/" ++ FileName f)
                        ++ ":" ++ Sprintf_d (LineNumber f)).
      { unfold line_text. now rewrite !append_assoc. }
      rewrite Htext. split.
      - now rewrite (occurs_byte_middle ":" _ (Sprintf_d (LineNumber f))).
      - f_equal.
        rewrite (proj1 (frame_of_string_line_fields _ _ "" Hname
                          (occurs_colon_Sprintf_d (LineNumber f)))).
        unfold spec_frame_B, read_back, line_or_minus_one.
        now rewrite (Atoi_Sprintf_d _ Hn). }
    destruct Hall as [-> ->]. reflexivity.
Qed.

Lemma String_lines_read_back_witness :
  StackTrace_String (skipn 2 (parsed_stack test_runtime))
  = fold_right (fun f rest => line_text f ++ newline ++ rest) ""
               (skipn 2 (parsed_stack test_runtime)) /\
  stacktrace test_runtime
    (dyn_error "boom" None None None None
       (Some (map line_text (skipn 2 (parsed_stack test_runtime)))))
  = Ok (map read_back (skipn 2 (parsed_stack test_runtime))).
Proof.
  apply (String_lines_read_back test_runtime "boom" None None None
           (skipn 2 (parsed_stack test_runtime))).
  repeat constructor.
Defined.

(** ** arrayMapToStringMap and FromReq *)

Module gomap_facts.
Import gomap.

Lemma find_filter_other {V : Type} (m : t V) (k k' : string) :
  String.eqb k k' = false ->
  find (fun kv => String.eqb (fst kv) k')
       (filter (fun kv => negb (String.eqb (fst kv) k)) m)
  = find (fun kv => String.eqb (fst kv) k') m.
Proof.
  intros Hk. induction m as [|[k0 v0] m IH]; [reflexivity|].
  cbn [filter find fst].
  destruct (String.eqb k0 k) eqn:E0; cbn [negb].
  - apply String.eqb_eq in E0. subst k0. rewrite Hk. exact IH.
  - cbn [find fst]. now rewrite IH.
Qed.

Lemma get_set {V : Type} (m : t V) (k k' : string) (v : V) :
  get (set m k v) k' = if String.eqb k k' then Some v else get m k'.
Proof.
  unfold get, set. cbn [find fst].
  destruct (String.eqb k k') eqn:Hk; [reflexivity|].
  now rewrite find_filter_other.
Qed.

Lemma get_cons {V : Type} (m : t V) (k k' : string) (v : V) :
  get ((k, v) :: m) k' = if String.eqb k k' then Some v else get m k'.
Proof. unfold get. cbn [find fst]. now destruct (String.eqb k k'). Qed.

Lemma get_absent {V : Type} (m : t V) (k : string) :
  ~ In k (keys m) -> get m k = None.
Proof.
  induction m as [|[k0 v0] m IH]; intros Hk; [reflexivity|].
  rewrite get_cons. destruct (String.eqb k0 k) eqn:E.
  - apply String.eqb_eq in E. subst k0. exfalso. apply Hk. now left.
  - apply IH. intros Hin. apply Hk. now right.
Qed.

Lemma get_In {V : Type} (m : t V) (k : string) (v : V) :
  NoDup (keys m) -> (get m k = Some v <-> In (k, v) m).
Proof.
  induction m as [|[k0 v0] m IH]; intros Hnd.
  - split; [discriminate | contradiction].
  - inversion Hnd as [|? ? Hnotin Hnd']; subst.
    rewrite get_cons. destruct (String.eqb k0 k) eqn:E.
    + apply String.eqb_eq in E. subst k0. split.
      * intros [= ->]. now left.
      * intros [[= ->]|Hin]; [reflexivity|].
        exfalso. apply Hnotin. apply (in_map fst) in Hin. exact Hin.
    + rewrite (IH Hnd'). split.
      * intros Hin. now right.
      * intros [[= -> ->]|Hin]; [|exact Hin].
        rewrite String.eqb_refl in E. discriminate E.
Qed.

Lemma get_Permutation {V : Type} (m m' : t V) (k : string) :
  NoDup (keys m) -> Permutation m m' -> get m k = get m' k.
Proof.
  intros Hnd Hperm.
  assert (Hnd' : NoDup (keys m')).
  { apply (Permutation_NoDup (l := keys m)); [|exact Hnd].
    unfold keys. now apply Permutation_map. }
  destruct (get m k) as [v|] eqn:Hm.
  - symmetry. apply (get_In m' k v Hnd').
    apply (Permutation_in _ Hperm). now apply (get_In m k v Hnd).
  - destruct (get m' k) as [v'|] eqn:Hm'; [|reflexivity].
    apply (get_In m' k v' Hnd') in Hm'.
    apply (Permutation_in _ (Permutation_sym Hperm)) in Hm'.
    apply (get_In m k v' Hnd) in Hm'. congruence.
Qed.

End gomap_facts.

Lemma arrayMap_entry_flattened (v : list string) :
  arrayMap_entry v
  = match v with
    | [] => Panic (index_out_of_range 0 0)
    | _ => Ok (flattened v)
    end.
Proof. destruct v as [|x [|y l]]; reflexivity. Qed.

Lemma arrayMap_range_outcome (m : gomap.t (list string)) :
  forall entries,
    match arrayMap_range m entries with
    | Ok _ => no_empty_slice m = true
    | Panic p => p = index_out_of_range 0 0 /\ no_empty_slice m = false
    end.
Proof.
  induction m as [|[k v] m IH]; intros entries; [reflexivity|].
  cbn [arrayMap_range no_empty_slice forallb snd].
  rewrite arrayMap_entry_flattened.
  destruct v as [|x l]; cbn [bind andb]; [split; reflexivity|].
  apply IH.
Qed.

Lemma arrayMap_range_get (m : gomap.t (list string)) :
  NoDup (gomap.keys m) ->
  forall entries result,
    arrayMap_range m entries = Ok result ->
    forall k,
      gomap.get result k
      = match gomap.get m k with
        | Some v => Some (flattened v)
        | None => gomap.get entries k
        end.
Proof.
  induction m as [|[k0 v0] m IH]; intros Hnd entries result H k.
  - injection H as ->. reflexivity.
  - inversion Hnd as [|? ? Hnotin Hnd']; subst.
    cbn [arrayMap_range] in H. rewrite arrayMap_entry_flattened in H.
    destruct v0 as [|x l]; [discriminate H|]. cbn [bind] in H.
    rewrite (IH Hnd' _ _ H k), gomap_facts.get_cons, gomap_facts.get_set.
    destruct (String.eqb k0 k) eqn:E; [|reflexivity].
    apply String.eqb_eq in E. subst k0.
    now rewrite (gomap_facts.get_absent m k Hnotin).
Qed.

(** X12. [arrayMapToStringMap] fails exactly when some key has an empty
    slice, with an index panic; the order in which the map is ranged over
    plays no part in that. *)
Theorem arrayMapToStringMap_outcome (arrayMap : gomap.t (list string)) :
  match arrayMapToStringMap arrayMap with
  | Ok _ => no_empty_slice arrayMap = true
  | Panic p => p = index_out_of_range 0 0 /\ no_empty_slice arrayMap = false
  end.
Proof. apply arrayMap_range_outcome. Qed.

(** X13. For a map without an empty slice, the result has exactly the
    keys of the map: a key with one value keeps it, a key with several
    gets them joined by semicolon and space inside brackets. *)
Theorem arrayMapToStringMap_lookup (arrayMap : gomap.t (list string)) :
  NoDup (gomap.keys arrayMap) ->
  no_empty_slice arrayMap = true ->
  exists entries,
    arrayMapToStringMap arrayMap = Ok entries /\
    forall k, gomap.get entries k = option_map flattened (gomap.get arrayMap k).
Proof.
  intros Hnd Hne.
  pose proof (arrayMapToStringMap_outcome arrayMap) as Hout.
  destruct (arrayMapToStringMap arrayMap) as [entries|p] eqn:H.
  - exists entries. split; [reflexivity|]. intros k.
    rewrite (arrayMap_range_get arrayMap Hnd [] entries H k).
    now destruct (gomap.get arrayMap k).
  - destruct Hout as [_ Hout]. congruence.
Qed.

Lemma arrayMapToStringMap_lookup_witness :
  exists entries,
    arrayMapToStringMap [("Accept", ["text/html"; "text/plain"]); ("Host", ["raygun.io"])]
    = Ok entries /\
    forall k,
      gomap.get entries k
      = option_map flattened
          (gomap.get [("Accept", ["text/html"; "text/plain"]); ("Host", ["raygun.io"])] k).
Proof.
  apply (arrayMapToStringMap_lookup
           [("Accept", ["text/html"; "text/plain"]); ("Host", ["raygun.io"])]).
  - repeat constructor; simpl; intuition discriminate.
  - reflexivity.
Defined.

Lemma no_empty_slice_Permutation (m m' : gomap.t (list string)) :
  Permutation m m' -> no_empty_slice m = no_empty_slice m'.
Proof.
  unfold no_empty_slice.
  induction 1 as [|x l l' _ IH|x y l|l l' l'' _ IH1 _ IH2]; cbn [forallb].
  - reflexivity.
  - now rewrite IH.
  - rewrite !andb_assoc. f_equal. apply andb_comm.
  - congruence.
Qed.

(** X14. The result does not depend on the order in which [range] yields
    the entries of the map: two orders give the same panic, or results
    with the same value under every key. *)
Theorem arrayMapToStringMap_order (arrayMap arrayMap' : gomap.t (list string)) :
  NoDup (gomap.keys arrayMap) ->
  Permutation arrayMap arrayMap' ->
  match arrayMapToStringMap arrayMap, arrayMapToStringMap arrayMap' with
  | Ok entries, Ok entries' => forall k, gomap.get entries k = gomap.get entries' k
  | Panic p, Panic p' => p = p'
  | _, _ => False
  end.
Proof.
  intros Hnd Hperm.
  assert (Hnd' : NoDup (gomap.keys arrayMap')).
  { apply (Permutation_NoDup (l := gomap.keys arrayMap)); [|exact Hnd].
    unfold gomap.keys. now apply Permutation_map. }
  pose proof (arrayMapToStringMap_outcome arrayMap) as Ho.
  pose proof (arrayMapToStringMap_outcome arrayMap') as Ho'.
  rewrite (no_empty_slice_Permutation _ _ Hperm) in Ho.
  destruct (arrayMapToStringMap arrayMap) as [e|p] eqn:H;
    destruct (arrayMapToStringMap arrayMap') as [e'|p'] eqn:H'.
  - intros k.
    rewrite (arrayMap_range_get arrayMap Hnd [] e H k).
    rewrite (arrayMap_range_get arrayMap' Hnd' [] e' H' k).
    now rewrite (gomap_facts.get_Permutation arrayMap arrayMap' k Hnd Hperm).
  - destruct Ho' as [_ Ho']. congruence.
  - destruct Ho as [_ Ho]. congruence.
  - destruct Ho as [-> _], Ho' as [-> _]. reflexivity.
Qed.

Lemma arrayMapToStringMap_order_witness :
  match arrayMapToStringMap [("a", ["1"; "2"]); ("b", ["3"]); ("c", ["4"])],
        arrayMapToStringMap [("c", ["4"]); ("a", ["1"; "2"]); ("b", ["3"])] with
  | Ok entries, Ok entries' => forall k, gomap.get entries k = gomap.get entries' k
  | Panic p, Panic p' => p = p'
  | _, _ => False
  end.
Proof.
  apply (arrayMapToStringMap_order
           [("a", ["1"; "2"]); ("b", ["3"]); ("c", ["4"])]
           [("c", ["4"]); ("a", ["1"; "2"]); ("b", ["3"])]).
  - repeat constructor; simpl; intuition discriminate.
  - apply Permutation_sym.
    apply (Permutation_cons_app [("a", ["1"; "2"]); ("b", ["3"])] [] ("c", ["4"])).
    rewrite app_nil_r. apply Permutation_refl.
Defined.

(** X15. [FromReq] panics with a nil dereference when the request, its
    body or its URL is nil; with those present it panics with an index
    out of range exactly when the query, the form or the header map has a
    key with an empty slice; otherwise it copies host, URL, method,
    address and body and flattens the three maps. *)
Theorem FromReq_outcome (req : option http_Request) :
  match FromReq req with
  | Ok result =>
      exists r url body,
        req = Some r /\ req_URL r = Some url /\ req_Body r = Some body /\
        HostName result = req_Host r /\
        URL result = URL_String url /\
        HTTPMethod result = req_Method r /\
        IPAddress result = req_RemoteAddr r /\
        RawData result = body /\
        arrayMapToStringMap (URL_Query url) = Ok (QueryString result) /\
        arrayMapToStringMap (req_PostForm r) = Ok (Form result) /\
        arrayMapToStringMap (req_Header r) = Ok (Headers result)
  | Panic p =>
      (p = nil_dereference /\
       (req = None \/
        exists r, req = Some r /\ (req_Body r = None \/ req_URL r = None))) \/
      (p = index_out_of_range 0 0 /\
       exists r url body,
         req = Some r /\ req_URL r = Some url /\ req_Body r = Some body /\
         no_empty_slice (URL_Query url) && no_empty_slice (req_PostForm r)
         && no_empty_slice (req_Header r) = false)
  end.
Proof.
  unfold FromReq.
  destruct req as [r|]; cbn [deref bind]; [|left; split; [reflexivity | now left]].
  destruct (req_Body r) as [body|] eqn:Hbody; cbn [deref bind];
    [|left; split; [reflexivity | right; exists r; split; [reflexivity | now left]]].
  destruct (req_URL r) as [url|] eqn:Hurl; cbn [deref bind];
    [|left; split; [reflexivity | right; exists r; split; [reflexivity | now right]]].
  pose proof (arrayMapToStringMap_outcome (URL_Query url)) as Hq.
  pose proof (arrayMapToStringMap_outcome (req_PostForm r)) as Hf.
  pose proof (arrayMapToStringMap_outcome (req_Header r)) as Hh.
  destruct (arrayMapToStringMap (URL_Query url)) as [q|p] eqn:Eq; cbn [bind].
  - destruct (arrayMapToStringMap (req_PostForm r)) as [f|p] eqn:Ef; cbn [bind].
    + destruct (arrayMapToStringMap (req_Header r)) as [h|p] eqn:Eh; cbn [bind].
      * exists r, url, body. repeat split; try assumption; reflexivity.
      * right. destruct Hh as [-> Hh]. split; [reflexivity|].
        exists r, url, body. rewrite Hh, andb_false_r. repeat split; try assumption; reflexivity.
    + right. destruct Hf as [-> Hf]. split; [reflexivity|].
      exists r, url, body. rewrite Hf, andb_false_r. repeat split; try assumption; reflexivity.
  - right. destruct Hq as [-> Hq]. split; [reflexivity|].
    exists r, url, body. rewrite Hq. repeat split; try assumption; reflexivity.
Qed.

(** With request, body and URL present and no empty slice, [FromReq]
    returns a request. *)
Lemma FromReq_returns (r : http_Request) (url : url_URL) (body : string) :
  req_URL r = Some url ->
  req_Body r = Some body ->
  no_empty_slice (URL_Query url) = true ->
  no_empty_slice (req_PostForm r) = true ->
  no_empty_slice (req_Header r) = true ->
  exists result, FromReq (Some r) = Ok result.
Proof.
  intros Hurl Hbody Hq Hf Hh.
  pose proof (FromReq_outcome (Some r)) as H.
  destruct (FromReq (Some r)) as [result|p]; [now exists result|].
  destruct H as [[_ [H|(r' & [= <-] & [H|H])]]|[_ (r' & url' & body' & [= <-] & Hu & _ & H)]];
    try congruence.
  rewrite Hurl in Hu. injection Hu as <-.
  rewrite Hq, Hf, Hh in H. discriminate H.
Qed.

(** ** FromErr on an error without capabilities *)

(** X16. For an error that has only its [Error] method, [FromErr] on a
    goroutine stack of at least two frames returns its text as message,
    no class, no data, no inner error, and the captured stack without its
    first two frames. *)
Theorem FromErr_plain_error (rt : runtime) (text : string) :
  (2 <= length (parsed_stack rt))%nat ->
  FromErr rt (errors_New text)
  = Ok {| InnerError := "";
          Data := any_nil;
          ClassName := "";
          Message := text;
          Error_StackTrace := skipn 2 (parsed_stack rt) |} /\
  length (skipn 2 (parsed_stack rt)) = (length (parsed_stack rt) - 2)%nat.
Proof.
  intros Hlen. split; [|apply length_skipn].
  cbn [FromErr errors_New]. unfold rayerr, stacktrace, slice_from.
  cbn [error_Error bind as_stackTracer1 as_stackTracer2 app].
  apply Nat.leb_le in Hlen. rewrite Hlen. reflexivity.
Qed.

Lemma FromErr_plain_error_witness :
  FromErr test_runtime (errors_New "new error")
  = Ok {| InnerError := "";
          Data := any_nil;
          ClassName := "";
          Message := "new error";
          Error_StackTrace := skipn 2 (parsed_stack test_runtime) |} /\
  length (skipn 2 (parsed_stack test_runtime)) = (length (parsed_stack test_runtime) - 2)%nat.
Proof.
  apply (FromErr_plain_error test_runtime "new error"). simpl. lia.
Defined.
